(** * The admin login of [format_string.cpp]

    A shallow embedding of the C++ example program
    [examples/memory_safety/format_string/format_string.cpp] and the
    properties of its credential check, its bounded reads, its buffers and
    its messages.

    Memory is modelled as lists of characters: a [char] array of size [n] is
    a [list ascii] of length [n], a C string is the part of such a list
    before its first NUL.  The standard streams, the calls of
    [std::system] and the two local buffers of [authenticate_admin] form the
    state that the program threads through its calls; undefined behaviour of
    [printf] is an explicit outcome. *)

From Stdlib Require Import ZArith Ascii String List Lia Bool.
From stdpp Require Import base list.

Local Open Scope Z_scope.
Local Open Scope nat_scope.

(** ** Constants of the source *)

Definition MAX_USERNAME_LENGTH : nat := 32.
Definition MAX_PASSWORD_LENGTH : nat := 32.
Definition BCRYPT_HASHSIZE : nat := 61.

(** ** Characters, literals and arrays *)

Definition NUL : ascii := "000"%char.
Definition NL : ascii := "010"%char.
Definition PERCENT : ascii := "%"%char.

(** The characters of a string literal, without the terminator. *)
Definition lit (s : string) : list ascii := list_ascii_of_string s.

(** A literal that ends in a newline escape. *)
Definition line (s : string) : list ascii := lit s ++ [NL].

(** [char a[n] = "..."]: the literal, then zero bytes up to the size. *)
Definition char_array (n : nat) (s : string) : list ascii :=
  lit s ++ replicate (n - length (lit s)) NUL.

Definition uchar (c : ascii) : Z := Z.of_N (N_of_ascii c).

(** ** The C library functions the program calls *)

Module Libc.

(** [strlen]: the number of characters before the first NUL. *)
Fixpoint strlen (s : list ascii) : nat :=
  match s with
  | [] => 0
  | c :: s' => if Ascii.eqb c NUL then 0 else S (strlen s')
  end.

(** The C string held at the start of a piece of memory. *)
Fixpoint cstr (s : list ascii) : list ascii :=
  match s with
  | [] => []
  | c :: s' => if Ascii.eqb c NUL then [] else c :: cstr s'
  end.

(** [strncmp s1 s2 n]: compares at most [n] characters and stops at a NUL;
    the sign of the result is that of the first differing pair, taken as
    unsigned characters. *)
Fixpoint strncmp (s1 s2 : list ascii) (n : nat) {struct n} : Z :=
  match n with
  | O => 0%Z
  | S n' =>
      let c1 := hd NUL s1 in
      let c2 := hd NUL s2 in
      if negb (Ascii.eqb c1 c2) then (uchar c1 - uchar c2)%Z
      else if Ascii.eqb c1 NUL then 0%Z
      else strncmp (tl s1) (tl s2) n'
  end.

(** [strcspn s reject]: the length of the longest initial part of the
    string [s] without a character of [reject]. *)
Fixpoint strcspn (s reject : list ascii) : nat :=
  match s with
  | [] => 0
  | c :: s' =>
      if Ascii.eqb c NUL || existsb (Ascii.eqb c) reject then 0
      else S (strcspn s' reject)
  end.

(** What one [fgets] takes from the stream: at most [k] characters, up to and
    including the first newline, or up to the end of the input. *)
Fixpoint read_chars (k : nat) (input : list ascii) {struct k}
  : list ascii * list ascii :=
  match k, input with
  | O, _ => ([], input)
  | S _, [] => ([], [])
  | S k', c :: rest =>
      if Ascii.eqb c NL then ([c], rest)
      else let (got, rest') := read_chars k' rest in (c :: got, rest')
  end.

(** Writing [data] over the first cells of [buf]. *)
Definition overwrite (buf data : list ascii) : list ascii :=
  data ++ drop (length data) buf.

(** [fgets buf n stream] on the content [input] of the stream: reads at most
    [n-1] characters and terminates them with a NUL; at end of file with
    nothing read the buffer is left as it was and the result is NULL
    ([false]).  Both calls of the program have [n = 32]. *)
Definition fgets (buf : list ascii) (n : nat) (input : list ascii)
  : bool * list ascii * list ascii :=
  let (got, rest) := read_chars (n - 1) input in
  match got with
  | [] => (false, buf, rest)
  | _ :: _ => (true, overwrite buf (got ++ [NUL]), rest)
  end.

(** Arguments of a formatted print; the program only ever passes strings. *)
Inductive arg : Type :=
| ArgStr (s : list ascii).

(** The text [printf] produces for a format and its arguments.  [%%] gives a
    percent sign and [%s] the next argument as a string; a conversion with no
    argument left for it, or a [%] that starts no conversion rendered here,
    is undefined behaviour ([None]): the C standard leaves a call with
    insufficient arguments or an invalid conversion undefined. *)
Fixpoint format (fmt : list ascii) (args : list arg) : option (list ascii) :=
  match fmt with
  | [] => Some []
  | c :: fmt' =>
      if Ascii.eqb c NUL then Some []
      else if Ascii.eqb c PERCENT then
        match fmt' with
        | [] => None
        | d :: fmt'' =>
            if Ascii.eqb d PERCENT then
              option_map (cons PERCENT) (format fmt'' args)
            else if Ascii.eqb d "s"%char then
              match args with
              | ArgStr s :: args' =>
                  option_map (app (cstr s)) (format fmt'' args')
              | [] => None
              end
            else None
        end
      else option_map (cons c) (format fmt' args)
  end.

End Libc.
Export Libc.

(** ** The state of a run *)

Record world : Type := World {
  stdin : list ascii;            (* what is still to be read *)
  stdout : list ascii;           (* what was printed so far *)
  stderr : list ascii;
  system_calls : list (list ascii);  (* commands given to [std::system] *)
  entered_name : list ascii;     (* storage of the two locals of *)
  entered_password : list ascii  (* [authenticate_admin] *)
}.

(** A call either returns a value and a new state or has undefined
    behaviour. *)
Inductive result (A : Type) : Type :=
| Done (a : A) (w : world)
| Undefined.
Arguments Done {A} a w.
Arguments Undefined {A}.

Definition prog (A : Type) : Type := world -> result A.

Definition ret {A} (a : A) : prog A := fun w => Done a w.

Definition bind {A B} (m : prog A) (k : A -> prog B) : prog B :=
  fun w => match m w with
           | Done a w' => k a w'
           | Undefined => Undefined
           end.

Declare Scope prog_scope.
Delimit Scope prog_scope with prog.
Notation "x <- m ;; k" := (bind m (fun x => k))
  (at level 100, m at next level, right associativity) : prog_scope.
Notation "m ;; k" := (bind m (fun _ => k))
  (at level 100, right associativity) : prog_scope.
Local Open Scope prog_scope.

(** *** Streams *)

Inductive stream : Type := Stdout | Stderr.

Definition emit (f : stream) (text : list ascii) (w : world) : world :=
  match f with
  | Stdout => World (stdin w) (stdout w ++ text) (stderr w) (system_calls w)
                    (entered_name w) (entered_password w)
  | Stderr => World (stdin w) (stdout w) (stderr w ++ text) (system_calls w)
                    (entered_name w) (entered_password w)
  end.

Definition fprintf (f : stream) (fmt : list ascii) (args : list arg) : prog unit :=
  fun w => match format fmt args with
           | Some text => Done tt (emit f text w)
           | None => Undefined
           end.

Definition printf (fmt : list ascii) (args : list arg) : prog unit :=
  fprintf Stdout fmt args.

(** [std::system cmd]: the command is recorded; what the shell then does is
    outside the program. *)
Definition spawned (cmd : list ascii) (w : world) : world :=
  World (stdin w) (stdout w) (stderr w) (system_calls w ++ [cmd])
        (entered_name w) (entered_password w).

Definition system (cmd : list ascii) : prog unit :=
  fun w => Done tt (spawned cmd w).

(** *** The two local arrays *)

Inductive local : Type := EnteredName | EnteredPassword.

Definition load (x : local) : prog (list ascii) :=
  fun w => Done (match x with
                 | EnteredName => entered_name w
                 | EnteredPassword => entered_password w
                 end) w.

Definition store (x : local) (v : list ascii) : prog unit :=
  fun w => Done tt
    match x with
    | EnteredName => World (stdin w) (stdout w) (stderr w) (system_calls w)
                           v (entered_password w)
    | EnteredPassword => World (stdin w) (stdout w) (stderr w) (system_calls w)
                               (entered_name w) v
    end.

(** [fgets(x, n, stdin)] for a local array [x]; the result of the call is
    not looked at by the program. *)
Definition fgets_stdin (x : local) (n : nat) : prog unit :=
  fun w =>
    let buf := match x with
               | EnteredName => entered_name w
               | EnteredPassword => entered_password w
               end in
    let '(_, buf', rest) := fgets buf n (stdin w) in
    store x buf' (World rest (stdout w) (stderr w) (system_calls w)
                        (entered_name w) (entered_password w)).

(** ** The program *)

(** [struct User]: two character arrays. *)
Record User : Type := mkUser {
  username : list ascii;          (* char username[MAX_USERNAME_LENGTH] *)
  hashed_password : list ascii    (* char hashed_password[BCRYPT_HASHSIZE] *)
}.

(** An initialiser [{"name", "hash"}] of the table. *)
Definition user_entry (name hash : string) : User :=
  mkUser (char_array MAX_USERNAME_LENGTH name) (char_array BCRYPT_HASHSIZE hash).

(** [secure_zeroize ptr len]: the loop [while (len--) *p++ = 0] over the
    memory that starts at [ptr]. *)
Fixpoint secure_zeroize (p : list ascii) (len : nat) {struct len} : list ascii :=
  match len with
  | O => p
  | S len' =>
      match p with
      | [] => []
      | _ :: p' => NUL :: secure_zeroize p' len'
      end
  end.

(** The scan of the table in [verify_user_password]: the loop leaves at the
    first entry for which [strncmp], bounded by the length of the stored
    name, gives 0. *)
Fixpoint find_user (db : list User) (name : list ascii) : option User :=
  match db with
  | [] => None
  | u :: db' =>
      if (strncmp (username u) name (strlen (username u)) =? 0)%Z then Some u
      else find_user db' name
  end.

(** The functions of the program, over the table and the password check
    they use. *)
Module Auth.
Section Auth.

Variable database : list User.
Variable bcrypt_checkpw : list ascii -> list ascii -> Z.

(** [verify_user_password]; a pointer argument is [None] when NULL and
    otherwise the memory it points to. *)
Definition verify_user_password (name password : option (list ascii)) : prog bool :=
  match name, password with
  | Some name, Some password =>
      let username_length := strlen name in
      let password_length := strlen password in
      if (username_length =? 0) || (MAX_USERNAME_LENGTH <=? username_length) ||
         (password_length =? 0) || (MAX_PASSWORD_LENGTH <=? password_length)
      then
        fprintf Stderr (line "Error: Username or password is invalid length.") [] ;;
        ret false
      else
        match find_user database name with
        | Some u =>
            if (bcrypt_checkpw password (hashed_password u) =? 0)%Z
            then ret true
            else ret false
        | None => ret false
        end
  | _, _ =>
      fprintf Stderr (line "Error: Username or password is NULL.") [] ;;
      ret false
  end.

Definition admin_panel : prog unit :=
  printf (line "<<< Welcome to admin panel >>>") [] ;;
  system (lit "/bin/sh").

Definition rule : list ascii :=
  NL :: line "------------------------------------------------------------".

Definition authenticate_admin : prog bool :=
  name <- load EnteredName ;;
  store EnteredName (secure_zeroize name MAX_USERNAME_LENGTH) ;;
  password <- load EnteredPassword ;;
  store EnteredPassword (secure_zeroize password MAX_PASSWORD_LENGTH) ;;
  printf (line "Enter username:") [] ;;
  fgets_stdin EnteredName MAX_USERNAME_LENGTH ;;
  printf (line "Enter password:") [] ;;
  fgets_stdin EnteredPassword MAX_PASSWORD_LENGTH ;;
  password <- load EnteredPassword ;;
  store EnteredPassword (<[strcspn password [NL] := NUL]> password) ;;
  name <- load EnteredName ;;
  password <- load EnteredPassword ;;
  ok <- verify_user_password (Some name) (Some password) ;;
  if ok : bool then
    printf rule [] ;;
    printf (lit "Password matched, Authenticated succesfully for the user:") [] ;;
    printf name [] ;;
    printf rule [] ;;
    ret true
  else
    printf (line "Password mismatch for the user: %s") [ArgStr name] ;;
    ret false.

Definition main : prog Z :=
  ok <- authenticate_admin ;;
  (if ok : bool then admin_panel
   else printf (line "Authentication failed!") []) ;;
  ret 0%Z.

End Auth.
End Auth.

(** The stub of the anonymous namespace: every check gives 0. *)
Definition bcrypt_checkpw (password hash : list ascii) : Z := 0%Z.

(** The table of the source. *)
Definition database : list User :=
  [ user_entry "admin" "aaaaaaaa";
    user_entry "lukas" "hashed_lukasPass";
    user_entry "greg" "hashed_gregPass" ].

Definition verify_user_password : option (list ascii) -> option (list ascii) -> prog bool :=
  Auth.verify_user_password database bcrypt_checkpw.
Definition admin_panel : prog unit := Auth.admin_panel.
Definition authenticate_admin : prog bool :=
  Auth.authenticate_admin database bcrypt_checkpw.
Definition main : prog Z := Auth.main database bcrypt_checkpw.

(** ** Notions used in the statements *)

(** A run starts with the text on standard input, nothing printed, and the
    two arrays holding whatever the stack held. *)
Definition initial (input name_mem password_mem : list ascii) : world :=
  World input [] [] [] name_mem password_mem.

Definition zeros (n : nat) : list ascii := replicate n NUL.

(** What the two prompts of [authenticate_admin] leave in the zeroed arrays
    when the stream holds [input]: the name as [fgets] stored it, the
    password after the assignment through [strcspn], and the rest of the
    stream. *)
Definition name_buffer (input : list ascii) : list ascii :=
  snd (fst (fgets (zeros MAX_USERNAME_LENGTH) MAX_USERNAME_LENGTH input)).

Definition after_name (input : list ascii) : list ascii :=
  snd (fgets (zeros MAX_USERNAME_LENGTH) MAX_USERNAME_LENGTH input).

Definition strip_newline (buf : list ascii) : list ascii :=
  <[strcspn buf [NL] := NUL]> buf.

Definition password_buffer (input : list ascii) : list ascii :=
  strip_newline
    (snd (fst (fgets (zeros MAX_PASSWORD_LENGTH) MAX_PASSWORD_LENGTH input))).

Definition after_password (input : list ascii) : list ascii :=
  snd (fgets (zeros MAX_PASSWORD_LENGTH) MAX_PASSWORD_LENGTH input).

(** The length test of [verify_user_password]. *)
Definition invalid_length (name password : list ascii) : bool :=
  (strlen name =? 0) || (MAX_USERNAME_LENGTH <=? strlen name) ||
  (strlen password =? 0) || (MAX_PASSWORD_LENGTH <=? strlen password).

(** The text of the two messages of [authenticate_admin]. *)
Definition success_head : list ascii :=
  Auth.rule ++ lit "Password matched, Authenticated succesfully for the user:".

Definition mismatch_message (name : list ascii) : list ascii :=
  lit "Password mismatch for the user: " ++ cstr name ++ [NL].

(** The state in which [authenticate_admin] calls [verify_user_password]. *)
Definition at_verification (w0 : world) : world :=
  World (after_password (after_name (stdin w0)))
        (stdout w0 ++ line "Enter username:" ++ line "Enter password:")
        (stderr w0) (system_calls w0)
        (name_buffer (stdin w0))
        (password_buffer (after_name (stdin w0))).

(** Both arrays have the size of their declaration. *)
Definition frame_ok (w : world) : Prop :=
  length (entered_name w) = MAX_USERNAME_LENGTH /\
  length (entered_password w) = MAX_PASSWORD_LENGTH.

(** The start of a run on the text [input], with cleared arrays. *)
Definition fresh (input : list ascii) : world :=
  initial input (zeros MAX_USERNAME_LENGTH) (zeros MAX_PASSWORD_LENGTH).

(** [verify_user_password] turns the pair down at its length test: the
    complaint goes to the error stream and the result is [false]. *)
Definition rejects_length db chk (name password : list ascii) (w : world) : Prop :=
  Auth.verify_user_password db chk (Some name) (Some password) w =
  Done false
    (emit Stderr (line "Error: Username or password is invalid length.") w).

(** Evaluation of a run on a given input. *)
Ltac run_to_end :=
  lazymatch goal with
  | |- exists w, ?r = Done ?a w /\ _ =>
      let v := eval vm_compute in r in
      lazymatch v with
      | Done _ ?w0 => exists w0; split; [vm_compute; reflexivity|]
      end
  end.

(** What [verify_user_password] returns for two arrays. *)
Definition verdict db (chk : list ascii -> list ascii -> Z)
    (name password : list ascii) : bool :=
  negb (invalid_length name password) &&
  match find_user db name with
  | Some u => (chk password (hashed_password u) =? 0)%Z
  | None => false
  end.


(** ** Facts about the library functions *)

Lemma secure_zeroize_app (p q : list ascii) :
  secure_zeroize (p ++ q) (length p) = zeros (length p) ++ q.
Proof.
  induction p as [|c p IH]; simpl; [reflexivity|].
  unfold zeros in *. simpl. now rewrite IH.
Qed.

Lemma secure_zeroize_whole (p : list ascii) :
  secure_zeroize p (length p) = zeros (length p).
Proof.
  rewrite <- (app_nil_r p) at 1.
  rewrite secure_zeroize_app. apply app_nil_r.
Qed.

Lemma secure_zeroize_array (p : list ascii) (n : nat) :
  length p = n -> secure_zeroize p n = zeros n.
Proof. intros <-. apply secure_zeroize_whole. Qed.


Lemma read_chars_full (k : nat) (l rest : list ascii) :
  NL ∉ take k l -> k <= length l ->
  read_chars k (l ++ rest) = (take k l, drop k l ++ rest).
Proof.
  revert l. induction k as [|k IH]; intros l Hnl Hlen; simpl.
  - reflexivity.
  - destruct l as [|c l]; simpl in *; [lia|].
    apply not_elem_of_cons in Hnl as [Hc Hl].
    destruct (Ascii.eqb_spec c NL) as [->|_]; [congruence|].
    rewrite IH; [reflexivity|assumption|lia].
Qed.

Lemma uchar_inj (c d : ascii) : uchar c = uchar d -> c = d.
Proof.
  unfold uchar. intros H. apply N2Z.inj in H.
  rewrite <- (ascii_N_embedding c), <- (ascii_N_embedding d). now rewrite H.
Qed.

(** [strncmp] bounded by the length of its first string tests whether that
    string starts the second piece of memory. *)
Lemma strncmp_stored_length (a b : list ascii) :
  strncmp a b (strlen a) = 0%Z <-> cstr a `prefix_of` b.
Proof.
  revert b. induction a as [|c a IH]; intros b; simpl.
  - split; [intros _; apply prefix_nil | reflexivity].
  - destruct (Ascii.eqb_spec c NUL) as [->|Hc]; simpl.
    + split; [intros _; apply prefix_nil | reflexivity].
    + destruct b as [|d b]; simpl.
      * destruct (Ascii.eqb_spec c NUL) as [|_]; [contradiction|]. simpl.
        split.
        -- intros H. exfalso. apply Hc, uchar_inj. unfold NUL in *. lia.
        -- intros [k Hk]. discriminate.
      * destruct (Ascii.eqb_spec c d) as [<-|Hcd]; simpl.
        -- destruct (Ascii.eqb_spec c NUL) as [|_]; [contradiction|].
           rewrite IH. split.
           ++ apply prefix_cons.
           ++ intros [k Hk]. injection Hk as ->. now exists k.
        -- split.
           ++ intros H. exfalso. apply Hcd, uchar_inj. lia.
           ++ intros [k Hk]. injection Hk as Hd _. congruence.
Qed.

(** The entry the scan finds is in the table and its name starts the
    candidate; the scan finds nothing exactly when no stored name does. *)
Lemma find_user_Some (db : list User) (name : list ascii) (u : User) :
  find_user db name = Some u ->
  u ∈ db /\ cstr (username u) `prefix_of` name.
Proof.
  induction db as [|v db IH]; simpl; [discriminate|].
  destruct (Z.eqb_spec (strncmp (username v) name (strlen (username v))) 0)
    as [Heq|_].
  - intros [= ->]. split; [constructor|].
    now apply strncmp_stored_length.
  - intros H. destruct (IH H) as [Hin Hpre]. split; [now constructor|assumption].
Qed.

Lemma find_user_None (db : list User) (name : list ascii) :
  find_user db name = None <->
  (forall u, u ∈ db -> ~ cstr (username u) `prefix_of` name).
Proof.
  induction db as [|v db IH]; simpl.
  - split; [intros _ u Hu; inversion Hu | reflexivity].
  - destruct (Z.eqb_spec (strncmp (username v) name (strlen (username v))) 0)
      as [Heq|Hne].
    + split; [discriminate|]. intros H. exfalso.
      apply (H v); [constructor|]. now apply strncmp_stored_length.
    + rewrite IH. split.
      * intros H u Hu. apply elem_of_cons in Hu as [->|Hu]; [|now apply H].
        intros Hp. now apply Hne, strncmp_stored_length.
      * intros H u Hu. apply H. now constructor.
Qed.

(** ** Facts about the functions of the program *)

(** [verify_user_password] on two arrays: a complaint on the error stream
    and [false] for a bad length, otherwise the verdict of the scan and the
    check, with nothing printed. *)
Lemma verify_user_password_eq db chk (name password : list ascii) (w : world) :
  Auth.verify_user_password db chk (Some name) (Some password) w =
  if invalid_length name password then
    Done false
      (emit Stderr (line "Error: Username or password is invalid length.") w)
  else
    Done (match find_user db name with
          | Some u => (chk password (hashed_password u) =? 0)%Z
          | None => false
          end) w.
Proof.
  unfold Auth.verify_user_password, invalid_length.
  destruct (_ || _ || _ || _); [reflexivity|].
  destruct (find_user db name) as [u|]; [|reflexivity].
  now destruct (chk password (hashed_password u) =? 0)%Z.
Qed.

Lemma format_mismatch (name : list ascii) :
  format (line "Password mismatch for the user: %s") [ArgStr name] =
  Some (mismatch_message name).
Proof. reflexivity. Qed.

(** [authenticate_admin] in one step: the reads, the verdict and the
    message. *)
Lemma authenticate_admin_eq db chk (w0 : world) :
  frame_ok w0 ->
  Auth.authenticate_admin db chk w0 =
  let w1 := at_verification w0 in
  match Auth.verify_user_password db chk
          (Some (entered_name w1)) (Some (entered_password w1)) w1 with
  | Done true w2 =>
      match format (entered_name w1) [] with
      | Some text =>
          Done true (emit Stdout (success_head ++ text ++ Auth.rule) w2)
      | None => Undefined
      end
  | Done false w2 =>
      Done false (emit Stdout (mismatch_message (entered_name w1)) w2)
  | Undefined => Undefined
  end.
Proof.
  intros [Hn Hp].
  unfold Auth.authenticate_admin.
  cbv [bind load store printf fprintf fgets_stdin ret].
  cbn [emit stdin stdout stderr system_calls entered_name entered_password].
  rewrite (secure_zeroize_array _ _ Hn), (secure_zeroize_array _ _ Hp).
  change (format (line "Enter username:") []) with (Some (line "Enter username:")).
  change (format (line "Enter password:") []) with (Some (line "Enter password:")).
  cbn [emit stdin stdout stderr system_calls entered_name entered_password].
  unfold at_verification, name_buffer, after_name, password_buffer,
    after_password, strip_newline.
  destruct (fgets (zeros MAX_USERNAME_LENGTH) MAX_USERNAME_LENGTH (stdin w0))
    as [[r1 nb] rest1].
  cbn [fst snd stdin stdout stderr system_calls entered_name entered_password].
  destruct (fgets (zeros MAX_PASSWORD_LENGTH) MAX_PASSWORD_LENGTH rest1)
    as [[r2 pb] rest2].
  cbn [fst snd stdin stdout stderr system_calls entered_name entered_password].
  rewrite !verify_user_password_eq.
  destruct (invalid_length nb _).
  - rewrite format_mismatch.
    cbn [emit stdin stdout stderr system_calls entered_name entered_password].
    now rewrite <- !app_assoc.
  - destruct (match find_user db nb with Some _ => _ | None => _ end).
    + change (format Auth.rule []) with (Some Auth.rule).
      change (format (lit "Password matched, Authenticated succesfully for the user:") [])
        with (Some (lit "Password matched, Authenticated succesfully for the user:")).
      cbn [emit stdin stdout stderr system_calls entered_name entered_password].
      destruct (format nb []) as [text|]; [|reflexivity].
      cbn [emit stdin stdout stderr system_calls entered_name entered_password].
      unfold success_head. now rewrite <- !app_assoc.
    + rewrite format_mismatch.
      cbn [emit stdin stdout stderr system_calls entered_name entered_password].
      now rewrite <- !app_assoc.
Qed.

Lemma main_eq db chk (w0 : world) :
  Auth.main db chk w0 =
  match Auth.authenticate_admin db chk w0 with
  | Done true w =>
      Done 0%Z (spawned (lit "/bin/sh")
                  (emit Stdout (line "<<< Welcome to admin panel >>>") w))
  | Done false w => Done 0%Z (emit Stdout (line "Authentication failed!") w)
  | Undefined => Undefined
  end.
Proof.
  unfold Auth.main, bind.
  destruct (Auth.authenticate_admin db chk w0) as [[|] w|]; reflexivity.
Qed.

(** *** Strings in memory *)

Lemma cstr_no_NUL (s : list ascii) : NUL ∉ cstr s.
Proof.
  induction s as [|c s IH]; simpl; [apply not_elem_of_nil|].
  destruct (Ascii.eqb_spec c NUL) as [->|Hc]; [apply not_elem_of_nil|].
  apply not_elem_of_cons. split; [congruence|assumption].
Qed.

Lemma prefix_of_cstr (a s : list ascii) :
  NUL ∉ a -> a `prefix_of` s <-> a `prefix_of` cstr s.
Proof.
  revert s. induction a as [|c a IH]; intros s H.
  - split; intros _; apply prefix_nil.
  - apply not_elem_of_cons in H as [Hc Ha].
    destruct s as [|d s]; simpl.
    + reflexivity.
    + destruct (Ascii.eqb_spec d NUL) as [->|Hd].
      * split; intros [k Hk]; [injection Hk as Hcd _; congruence|discriminate].
      * split; intros [k Hk]; injection Hk as <- Hk.
        -- apply prefix_cons, (proj1 (IH s Ha)). now exists k.
        -- apply prefix_cons, (proj2 (IH s Ha)). now exists k.
Qed.

(** A text without a percent sign is printed up to its terminator. *)
Lemma format_no_percent (s : list ascii) (args : list arg) :
  PERCENT ∉ s -> format s args = Some (cstr s).
Proof.
  induction s as [|c s IH]; intros H; [reflexivity|].
  apply not_elem_of_cons in H as [Hc Hs].
  cbn [format cstr].
  destruct (Ascii.eqb_spec c NUL) as [|_]; [reflexivity|].
  destruct (Ascii.eqb_spec c PERCENT) as [->|_]; [congruence|].
  now rewrite IH.
Qed.

(** *** What the prompts store for a line that fits *)

Lemma zeros_length (n : nat) : length (zeros n) = n.
Proof. apply length_replicate. Qed.

Lemma drop_zeros (k n : nat) : drop k (zeros n) = zeros (n - k).
Proof. apply drop_replicate. Qed.


Lemma fgets_cut (n : nat) (l rest : list ascii) :
  NL ∉ take (n - 1) l -> 2 <= n <= length l ->
  fgets (zeros n) n (l ++ rest) =
  (true, take (n - 1) l ++ [NUL], drop (n - 1) l ++ rest).
Proof.
  intros Hnl Hlen. unfold fgets.
  rewrite read_chars_full by (assumption || lia).
  destruct (take (n - 1) l) as [|c got] eqn:E.
  { apply (f_equal length) in E. rewrite length_take in E. simpl in E. lia. }
  rewrite <- E. unfold overwrite.
  rewrite !length_app, length_take, drop_zeros. simpl.
  match goal with |- context [zeros ?k] => replace k with 0 by lia end.
  simpl. now rewrite app_nil_r.
Qed.

Lemma strcspn_newline (p tail : list ascii) :
  NL ∉ p -> NUL ∉ p -> strcspn (p ++ NL :: tail) [NL] = length p.
Proof.
  induction p as [|c p IH]; intros Hnl Hnul; simpl; [reflexivity|].
  apply not_elem_of_cons in Hnl as [Hc1 Hnl].
  apply not_elem_of_cons in Hnul as [Hc0 Hnul].
  destruct (Ascii.eqb_spec c NUL) as [->|_]; [congruence|].
  destruct (Ascii.eqb_spec c NL) as [->|_]; [congruence|].
  simpl. now rewrite IH.
Qed.



(** ** Properties of the login *)

(** *** The password never decides *)

(** C3: for a username that passes the length test and two passwords of
    valid, nonzero length, [verify_user_password] gives the same result: the
    stub check returns 0 whatever the password is. *)
Theorem verdict_ignores_password_content (name p1 p2 : list ascii) (w : world) :
  0 < strlen name < MAX_USERNAME_LENGTH ->
  0 < strlen p1 < MAX_PASSWORD_LENGTH ->
  0 < strlen p2 < MAX_PASSWORD_LENGTH ->
  verify_user_password (Some name) (Some p1) w =
  verify_user_password (Some name) (Some p2) w.
Proof.
  intros Hn H1 H2. unfold verify_user_password.
  rewrite !verify_user_password_eq. unfold invalid_length.
  assert (Hz : forall k m, 0 < k < m -> (k =? 0) = false /\ (m <=? k) = false).
  { intros k m Hk. split; [apply Nat.eqb_neq|apply Nat.leb_gt]; lia. }
  destruct (Hz _ _ Hn) as [-> ->].
  destruct (Hz _ _ H1) as [-> ->].
  destruct (Hz _ _ H2) as [-> ->].
  reflexivity.
Qed.

Lemma verdict_ignores_password_content_witness :
  0 < strlen (char_array 32 "admin") < MAX_USERNAME_LENGTH /\
  0 < strlen (char_array 32 "aaaaaaaa") < MAX_PASSWORD_LENGTH /\
  0 < strlen (char_array 32 "wrong") < MAX_PASSWORD_LENGTH /\
  verify_user_password (Some (char_array 32 "admin"))
                       (Some (char_array 32 "aaaaaaaa")) (fresh []) =
  verify_user_password (Some (char_array 32 "admin"))
                       (Some (char_array 32 "wrong")) (fresh []).
Proof.
  assert (Hn : 0 < strlen (char_array 32 "admin") < MAX_USERNAME_LENGTH)
    by (vm_compute; lia).
  assert (H1 : 0 < strlen (char_array 32 "aaaaaaaa") < MAX_PASSWORD_LENGTH)
    by (vm_compute; lia).
  assert (H2 : 0 < strlen (char_array 32 "wrong") < MAX_PASSWORD_LENGTH)
    by (vm_compute; lia).
  split; [exact Hn|]. split; [exact H1|]. split; [exact H2|].
  exact (verdict_ignores_password_content _ _ _ (fresh []) Hn H1 H2).
Defined.

(** *** The length test *)

(** C7, as the code has it: the length test turns a pair down exactly when
    one of the two strings is empty or has [MAX] = 32 or more characters,
    whatever the table and the check are; a length of 31 passes. *)
Theorem length_test_bounds db chk (name password : list ascii) (w : world) :
  rejects_length db chk name password w <->
  (strlen name = 0 \/ MAX_USERNAME_LENGTH <= strlen name \/
   strlen password = 0 \/ MAX_PASSWORD_LENGTH <= strlen password).
Proof.
  unfold rejects_length. rewrite verify_user_password_eq.
  unfold invalid_length.
  destruct (Nat.eqb_spec (strlen name) 0) as [?|Hn0];
    destruct (Nat.leb_spec MAX_USERNAME_LENGTH (strlen name)) as [?|Hn1];
    destruct (Nat.eqb_spec (strlen password) 0) as [?|Hp0];
    destruct (Nat.leb_spec MAX_PASSWORD_LENGTH (strlen password)) as [?|Hp1];
    simpl; try (split; [intros _; tauto | reflexivity]).
  split; [|lia].
  intros H. exfalso. injection H as _ H.
  apply (f_equal stderr) in H. destruct w as [i o e c n p]. simpl in H.
  apply (f_equal length) in H. rewrite length_app in H. simpl in H. lia.
Qed.

(** C7 as stated fails: a username of 31 characters is at the bound
    [max - 1] and passes the length test. *)
Lemma length_31_passes :
  ~ (forall name password w,
        rejects_length database bcrypt_checkpw name password w <->
        (strlen name = 0 \/ MAX_USERNAME_LENGTH - 1 <= strlen name \/
         strlen password = 0 \/ MAX_PASSWORD_LENGTH - 1 <= strlen password)).
Proof.
  intros H.
  specialize (H (char_array 32 "adminaaaaaaaaaaaaaaaaaaaaaaaaaa")
                (char_array 32 "x") (fresh [])).
  destruct H as [_ H].
  assert (Hr : rejects_length database bcrypt_checkpw
                 (char_array 32 "adminaaaaaaaaaaaaaaaaaaaaaaaaaa")
                 (char_array 32 "x") (fresh [])).
  { apply H. right. left. vm_compute. lia. }
  unfold rejects_length in Hr. vm_compute in Hr. discriminate Hr.
Qed.

(** *** The lookup *)

(** C4 on the code: the scan compares only as many characters as the stored
    name has, so the candidate [adminX], which no entry of the table has as
    its name, finds the entry of [admin]; and the run that enters it is let
    in. *)
Theorem lookup_accepts_extended_name :
  find_user database (char_array 32 "adminX") = Some (user_entry "admin" "aaaaaaaa") /\
  cstr (username (user_entry "admin" "aaaaaaaa")) <> cstr (char_array 32 "adminX") /\
  (forall u, u ∈ database -> cstr (username u) <> lit "adminX") /\
  exists w, main (fresh (line "adminX" ++ line "x")) = Done 0%Z w /\
            system_calls w = [lit "/bin/sh"].
Proof.
  split; [vm_compute; reflexivity|].
  split; [vm_compute; discriminate|]. split.
  - intros u Hu. unfold database in Hu.
    repeat (apply elem_of_cons in Hu as [->|Hu]; [vm_compute; discriminate|]).
    inversion Hu.
  - run_to_end. vm_compute; reflexivity.
Qed.

(** *** The success message *)

(** C1 on the code: the array that holds the entered name is the format of
    the [printf] of the success message.  For the name [admin%%] the message
    shows a single percent sign, so the text is not printed as entered; for
    [admin%s] the call has a conversion and no argument, which is undefined
    behaviour. *)
Theorem success_message_formats_the_name :
  (exists w,
      main (fresh (line "admin%%" ++ line "x")) = Done 0%Z w /\
      cstr (entered_name w) = line "admin%%" /\
      stdout w = line "Enter username:" ++ line "Enter password:" ++
                 success_head ++ line "admin%" ++ Auth.rule ++
                 line "<<< Welcome to admin panel >>>") /\
  main (fresh (line "admin%s" ++ line "x")) = Undefined /\
  main (fresh (line "admin%s%s%s%s" ++ line "x")) = Undefined.
Proof.
  split; [|split; vm_compute; reflexivity].
  run_to_end. split; vm_compute; reflexivity.
Qed.

(** *** Newlines *)

(** C8 on the code: the line that removes the newline is applied to the
    password only.  After the line [admin] is entered, the name with which
    the table is searched still ends in the newline. *)
Theorem name_keeps_its_newline :
  let w := at_verification (fresh (line "admin" ++ line "x")) in
  cstr (entered_name w) = lit "admin" ++ [NL] /\
  cstr (entered_password w) = lit "x" /\
  exists w', authenticate_admin (fresh (line "admin" ++ line "x")) = Done true w' /\
             entered_name w' = entered_name w.
Proof.
  split; [vm_compute; reflexivity|]. split; [vm_compute; reflexivity|].
  run_to_end. vm_compute; reflexivity.
Qed.

(** *** The verdict of a run *)

(** A run that is turned down: [authenticate_admin] returns [false], prints
    the mismatch line and leaves the arrays as the prompts filled them. *)
Lemma authenticate_admin_false db chk (w0 : world) :
  frame_ok w0 ->
  let w1 := at_verification w0 in
  verdict db chk (entered_name w1) (entered_password w1) = false ->
  exists w,
    Auth.authenticate_admin db chk w0 = Done false w /\
    stdout w = stdout w1 ++ mismatch_message (entered_name w1) /\
    stderr w =
      stderr w0 ++
      (if invalid_length (entered_name w1) (entered_password w1)
       then line "Error: Username or password is invalid length." else []) /\
    system_calls w = system_calls w0 /\
    stdin w = stdin w1 /\
    entered_name w = entered_name w1 /\
    entered_password w = entered_password w1.
Proof.
  intros Hf w1 Hv. rewrite authenticate_admin_eq by assumption.
  fold w1. cbv zeta. rewrite verify_user_password_eq.
  unfold verdict in Hv.
  destruct (invalid_length (entered_name w1) (entered_password w1)).
  - eexists. split; [reflexivity|]. repeat split.
  - cbn [negb andb] in Hv. rewrite Hv.
    eexists. split; [reflexivity|]. repeat split.
    cbn. now rewrite app_nil_r.
Qed.

(** A run that is let in, for a name without a percent sign. *)
Lemma authenticate_admin_true db chk (w0 : world) :
  frame_ok w0 ->
  let w1 := at_verification w0 in
  verdict db chk (entered_name w1) (entered_password w1) = true ->
  PERCENT ∉ entered_name w1 ->
  exists w,
    Auth.authenticate_admin db chk w0 = Done true w /\
    stdout w = stdout w1 ++ success_head ++ cstr (entered_name w1) ++ Auth.rule /\
    stderr w = stderr w0 /\
    system_calls w = system_calls w0 /\
    stdin w = stdin w1 /\
    entered_name w = entered_name w1 /\
    entered_password w = entered_password w1.
Proof.
  intros Hf w1 Hv Hpct. rewrite authenticate_admin_eq by assumption.
  fold w1. cbv zeta. rewrite verify_user_password_eq.
  unfold verdict in Hv. apply andb_true_iff in Hv as [Hi Hv].
  apply negb_true_iff in Hi. rewrite Hi, Hv.
  rewrite format_no_percent by assumption.
  eexists. split; [reflexivity|]. repeat split.
Qed.


Lemma frame_ok_initial (input nm pm : list ascii) :
  length nm = MAX_USERNAME_LENGTH -> length pm = MAX_PASSWORD_LENGTH ->
  frame_ok (initial input nm pm).
Proof. now split. Qed.

Lemma frame_ok_fresh (input : list ascii) : frame_ok (fresh input).
Proof. split; apply zeros_length. Qed.

(** The two ways [authenticate_admin] can go: when it returns, the result
    is the verdict and the arrays are as the prompts filled them; and it
    does return when the pair is not accepted or the name can be printed as
    a format without arguments. *)
Lemma authenticate_admin_cases db chk (w0 : world) :
  frame_ok w0 ->
  let w1 := at_verification w0 in
  let ok := verdict db chk (entered_name w1) (entered_password w1) in
  (forall b w,
      Auth.authenticate_admin db chk w0 = Done b w ->
      b = ok /\ entered_name w = entered_name w1 /\
      entered_password w = entered_password w1) /\
  (ok = false \/ format (entered_name w1) [] <> None ->
   exists w, Auth.authenticate_admin db chk w0 = Done ok w).
Proof.
  intros Hf w1 ok. subst ok. unfold verdict.
  rewrite authenticate_admin_eq by assumption. fold w1. cbv zeta.
  rewrite verify_user_password_eq.
  destruct (invalid_length (entered_name w1) (entered_password w1));
    cbn [negb andb].
  - split.
    + intros b w [= <- <-]. repeat split.
    + intros _. eexists. reflexivity.
  - destruct (match find_user db (entered_name w1) with
              | Some _ => _ | None => _ end).
    + destruct (format (entered_name w1) []) as [text|].
      * split.
        -- intros b w [= <- <-]. repeat split.
        -- intros _. eexists. reflexivity.
      * split; [discriminate|]. intros [H|H]; [discriminate|congruence].
    + split.
      * intros b w [= <- <-]. repeat split.
      * intros _. eexists. reflexivity.
Qed.

(** *** The stored pairs *)

(** C10: when the name of an entry of the table and, at the password
    prompt, the text stored with it are entered, [authenticate_admin]
    returns [true] and [main] calls [admin_panel], whose shell is started
    exactly once. *)
Theorem stored_pair_is_granted (u : User) (rest nm pm : list ascii) :
  u ∈ database ->
  length nm = MAX_USERNAME_LENGTH -> length pm = MAX_PASSWORD_LENGTH ->
  let w0 := initial (cstr (username u) ++ NL ::
                     cstr (hashed_password u) ++ NL :: rest) nm pm in
  (exists w, authenticate_admin w0 = Done true w) /\
  (exists w, main w0 = Done 0%Z w /\ system_calls w = [lit "/bin/sh"]).
Proof.
  intros Hu Hn Hp w0.
  assert (Hf : frame_ok w0) by now apply frame_ok_initial.
  unfold main, authenticate_admin.
  rewrite main_eq, (authenticate_admin_eq _ _ _ Hf).
  unfold database in Hu. subst w0.
  repeat (apply elem_of_cons in Hu as [->|Hu]); [..|inversion Hu].
  all: vm_compute; split; eexists; [reflexivity|split; reflexivity].
Qed.

Lemma stored_pair_is_granted_witness :
  user_entry "admin" "aaaaaaaa" ∈ database /\
  length (zeros 32) = MAX_USERNAME_LENGTH /\
  length (zeros 32) = MAX_PASSWORD_LENGTH /\
  (exists w, authenticate_admin
               (initial (lit "admin" ++ NL :: lit "aaaaaaaa" ++ NL :: [])
                        (zeros 32) (zeros 32)) = Done true w) /\
  (exists w, main (initial (lit "admin" ++ NL :: lit "aaaaaaaa" ++ NL :: [])
                           (zeros 32) (zeros 32)) = Done 0%Z w /\
             system_calls w = [lit "/bin/sh"]).
Proof.
  assert (Hu : user_entry "admin" "aaaaaaaa" ∈ database) by constructor.
  split; [exact Hu|]. split; [reflexivity|]. split; [reflexivity|].
  exact (stored_pair_is_granted (user_entry "admin" "aaaaaaaa") []
           (zeros 32) (zeros 32) Hu eq_refl eq_refl).
Defined.

(** *** Runs that are turned down *)

Lemma no_match_no_entry db (name : list ascii) :
  (forall u, u ∈ db -> ~ cstr (username u) `prefix_of` cstr name) <->
  find_user db name = None.
Proof.
  rewrite find_user_None. split; intros H u Hu Hp; apply (H u Hu).
  - exact (proj1 (prefix_of_cstr _ name (cstr_no_NUL _)) Hp).
  - exact (proj2 (prefix_of_cstr _ name (cstr_no_NUL _)) Hp).
Qed.

Lemma main_after_false db chk (w0 w : world) :
  Auth.authenticate_admin db chk w0 = Done false w ->
  Auth.main db chk w0 = Done 0%Z (emit Stdout (line "Authentication failed!") w).
Proof. intros H. now rewrite main_eq, H. Qed.

(** C2, as the code has it: when no stored name starts the entered username
    (so the username is not in the table, and is not a stored name followed
    by more text either), [authenticate_admin] returns [false], [main]
    reports the failure and the shell of [admin_panel] is never started. *)
Theorem denied_when_no_stored_name_starts_the_entry (w0 : world) :
  frame_ok w0 ->
  (forall u, u ∈ database ->
     ~ cstr (username u) `prefix_of` cstr (name_buffer (stdin w0))) ->
  (exists w, authenticate_admin w0 = Done false w) /\
  (exists w, main w0 = Done 0%Z w /\
             system_calls w = system_calls w0 /\
             line "Authentication failed!" `suffix_of` stdout w).
Proof.
  intros Hf Hno. apply no_match_no_entry in Hno.
  destruct (authenticate_admin_false database bcrypt_checkpw w0 Hf)
    as (w & Hrun & _ & _ & Hcalls & _).
  { unfold verdict. cbn [at_verification entered_name]. rewrite Hno.
    apply andb_false_r. }
  split; [now exists w|].
  exists (emit Stdout (line "Authentication failed!") w).
  split; [now apply main_after_false|]. split; [exact Hcalls|].
  now exists (stdout w).
Qed.

Lemma denied_when_no_stored_name_starts_the_entry_witness :
  frame_ok (fresh (line "nouser" ++ line "x")) /\
  (forall u, u ∈ database ->
     ~ cstr (username u) `prefix_of`
         cstr (name_buffer (stdin (fresh (line "nouser" ++ line "x"))))) /\
  (exists w, authenticate_admin (fresh (line "nouser" ++ line "x")) = Done false w) /\
  (exists w, main (fresh (line "nouser" ++ line "x")) = Done 0%Z w /\
             system_calls w = system_calls (fresh (line "nouser" ++ line "x")) /\
             line "Authentication failed!" `suffix_of` stdout w).
Proof.
  assert (Hf : frame_ok (fresh (line "nouser" ++ line "x")))
    by apply frame_ok_fresh.
  assert (Hno : forall u, u ∈ database ->
     ~ cstr (username u) `prefix_of`
         cstr (name_buffer (stdin (fresh (line "nouser" ++ line "x"))))).
  { apply no_match_no_entry. vm_compute. reflexivity. }
  split; [exact Hf|]. split; [exact Hno|].
  exact (denied_when_no_stored_name_starts_the_entry _ Hf Hno).
Defined.

(** C2 as stated fails: no entry of the table stores [wrong], and the
    array the name prompt fills holds no stored name either, yet the run is
    let in and the shell is started; so is the pair of the stored name
    [admin] and the password [wrong] when given to [verify_user_password]. *)
Lemma wrong_password_is_let_in :
  (forall u, u ∈ database -> cstr (hashed_password u) <> lit "wrong") /\
  (forall u, u ∈ database ->
     cstr (username u) <> cstr (name_buffer (line "admin" ++ line "wrong"))) /\
  verify_user_password (Some (char_array 32 "admin"))
                       (Some (char_array 32 "wrong")) (fresh []) =
    Done true (fresh []) /\
  exists w, main (fresh (line "admin" ++ line "wrong")) = Done 0%Z w /\
            system_calls w = [lit "/bin/sh"] /\
            cstr (entered_password w) = lit "wrong".
Proof.
  split; [|split; [|split]].
  - intros u Hu. unfold database in Hu.
    repeat (apply elem_of_cons in Hu as [->|Hu]; [vm_compute; discriminate|]).
    inversion Hu.
  - intros u Hu. unfold database in Hu.
    repeat (apply elem_of_cons in Hu as [->|Hu]; [vm_compute; discriminate|]).
    inversion Hu.
  - vm_compute. reflexivity.
  - run_to_end. split; vm_compute; reflexivity.
Qed.

(** *** What a failed run shows *)




(** *** Lines that do not fit *)

Lemma name_buffer_cut (l rest : list ascii) :
  NL ∉ l -> MAX_USERNAME_LENGTH <= length l ->
  name_buffer (l ++ NL :: rest) = take 31 l ++ [NUL] /\
  after_name (l ++ NL :: rest) = drop 31 l ++ NL :: rest.
Proof.
  intros Hnl Hlen. unfold name_buffer, after_name.
  unfold MAX_USERNAME_LENGTH in *.
  rewrite fgets_cut; [now split| |lia].
  rewrite <- (take_drop 31 l) in Hnl.
  now apply not_elem_of_app in Hnl as [H1 _].
Qed.

(** C5, as the code has it: a username line of 32 or more characters is
    not turned down at the prompt.  The name array receives its first 31
    characters and a terminator, the password prompt reads on in the same
    line, and [verify_user_password] is called on the two arrays filled this
    way; when [authenticate_admin] returns, its result is the verdict on
    them, table lookup included, and the arrays still hold them.  It does
    return when the pair is not accepted or the name can be printed. *)
Theorem overlong_username_is_cut (l rest nm pm : list ascii) :
  length nm = MAX_USERNAME_LENGTH -> length pm = MAX_PASSWORD_LENGTH ->
  MAX_USERNAME_LENGTH <= length l -> NL ∉ l ->
  let w0 := initial (l ++ NL :: rest) nm pm in
  let name := take 31 l ++ [NUL] in
  let password := password_buffer (drop 31 l ++ NL :: rest) in
  let ok := verdict database bcrypt_checkpw name password in
  entered_name (at_verification w0) = name /\
  entered_password (at_verification w0) = password /\
  (forall b w,
      authenticate_admin w0 = Done b w ->
      b = ok /\ entered_name w = name /\ entered_password w = password) /\
  (ok = false \/ format name [] <> None ->
   exists w, authenticate_admin w0 = Done ok w).
Proof.
  intros Hn Hp Hlen Hnl w0 name password ok.
  assert (Hf : frame_ok w0) by now apply frame_ok_initial.
  destruct (name_buffer_cut l rest Hnl Hlen) as [Hname Hafter].
  assert (Hen : entered_name (at_verification w0) = name).
  { unfold at_verification, w0, initial. cbn [stdin entered_name].
    exact Hname. }
  assert (Hep : entered_password (at_verification w0) = password).
  { unfold at_verification, w0, initial. cbn [stdin entered_password].
    now rewrite Hafter. }
  split; [exact Hen|]. split; [exact Hep|].
  destruct (authenticate_admin_cases database bcrypt_checkpw w0 Hf)
    as [Hret Hdef].
  rewrite Hen, Hep in Hret, Hdef. split; assumption.
Qed.

Lemma not_elem_of_forallb (c : ascii) (l : list ascii) :
  forallb (fun x => negb (Ascii.eqb x c)) l = true -> c ∉ l.
Proof.
  induction l as [|x l IH]; simpl; intros H; [apply not_elem_of_nil|].
  apply andb_true_iff in H as [Hx Hl].
  apply not_elem_of_cons. split; [|now apply IH].
  intros ->. now rewrite Ascii.eqb_refl in Hx.
Qed.

Lemma overlong_username_is_cut_witness :
  length (zeros 32) = MAX_USERNAME_LENGTH /\
  length (zeros 32) = MAX_PASSWORD_LENGTH /\
  MAX_USERNAME_LENGTH <= length (lit "admin%%" ++ replicate 40 "a"%char) /\
  (NL ∉ lit "admin%%" ++ replicate 40 "a"%char) /\
  entered_name
    (at_verification
       (initial ((lit "admin%%" ++ replicate 40 "a"%char) ++ NL :: [])
                (zeros 32) (zeros 32))) =
    take 31 (lit "admin%%" ++ replicate 40 "a"%char) ++ [NUL] /\
  entered_password
    (at_verification
       (initial ((lit "admin%%" ++ replicate 40 "a"%char) ++ NL :: [])
                (zeros 32) (zeros 32))) =
    password_buffer
      (drop 31 (lit "admin%%" ++ replicate 40 "a"%char) ++ NL :: []) /\
  (forall b w,
      authenticate_admin
        (initial ((lit "admin%%" ++ replicate 40 "a"%char) ++ NL :: [])
                 (zeros 32) (zeros 32)) = Done b w ->
      b = verdict database bcrypt_checkpw
            (take 31 (lit "admin%%" ++ replicate 40 "a"%char) ++ [NUL])
            (password_buffer
               (drop 31 (lit "admin%%" ++ replicate 40 "a"%char) ++ NL :: [])) /\
      entered_name w =
        take 31 (lit "admin%%" ++ replicate 40 "a"%char) ++ [NUL] /\
      entered_password w =
        password_buffer
          (drop 31 (lit "admin%%" ++ replicate 40 "a"%char) ++ NL :: [])) /\
  (verdict database bcrypt_checkpw
     (take 31 (lit "admin%%" ++ replicate 40 "a"%char) ++ [NUL])
     (password_buffer
        (drop 31 (lit "admin%%" ++ replicate 40 "a"%char) ++ NL :: []))
   = false \/
   format (take 31 (lit "admin%%" ++ replicate 40 "a"%char) ++ [NUL]) []
     <> None ->
   exists w,
     authenticate_admin
       (initial ((lit "admin%%" ++ replicate 40 "a"%char) ++ NL :: [])
                (zeros 32) (zeros 32)) =
     Done (verdict database bcrypt_checkpw
             (take 31 (lit "admin%%" ++ replicate 40 "a"%char) ++ [NUL])
             (password_buffer
                (drop 31 (lit "admin%%" ++ replicate 40 "a"%char) ++ NL :: [])))
          w).
Proof.
  assert (Hlen : MAX_USERNAME_LENGTH <=
                 length (lit "admin%%" ++ replicate 40 "a"%char))
    by (vm_compute; lia).
  assert (Hnl : NL ∉ lit "admin%%" ++ replicate 40 "a"%char)
    by (apply not_elem_of_forallb; vm_compute; reflexivity).
  split; [reflexivity|]. split; [reflexivity|]. split; [exact Hlen|].
  split; [exact Hnl|].
  exact (overlong_username_is_cut (lit "admin%%" ++ replicate 40 "a"%char) []
           (zeros 32) (zeros 32) eq_refl eq_refl Hlen Hnl).
Defined.

(** C5 as stated fails: the username line [admin] followed by forty [a] is
    longer than the array, yet nothing is reported; its first 31 characters
    become the name, the other 14 the password, the table is searched and
    the run is let in. *)
Lemma overlong_username_is_let_in :
  MAX_USERNAME_LENGTH <= length (lit "admin" ++ replicate 40 "a"%char) /\
  exists w,
    main (fresh ((lit "admin" ++ replicate 40 "a"%char) ++ [NL])) = Done 0%Z w /\
    system_calls w = [lit "/bin/sh"] /\
    stderr w = [] /\
    cstr (entered_name w) = take 31 (lit "admin" ++ replicate 40 "a"%char) /\
    cstr (entered_password w) = drop 31 (lit "admin" ++ replicate 40 "a"%char) /\
    find_user database (entered_name w) = Some (user_entry "admin" "aaaaaaaa").
Proof.
  split; [vm_compute; lia|].
  run_to_end. repeat split; vm_compute; reflexivity.
Qed.

(** *** The arrays at the return *)




(** ** Further properties of the functions *)

(** *** [secure_zeroize] *)

Lemma secure_zeroize_within (p : list ascii) (len : nat) :
  len <= length p -> secure_zeroize p len = zeros len ++ drop len p.
Proof.
  revert p. induction len as [|len IH]; intros p Hlen; [reflexivity|].
  destruct p as [|c p]; simpl in *; [lia|].
  rewrite IH by lia. reflexivity.
Qed.

(** X1: [secure_zeroize ptr len] within the memory it is given sets the first
    [len] bytes to zero and leaves every later byte and the size as they
    were; clearing a second time changes nothing. *)
Theorem secure_zeroize_clears_exactly_len (p : list ascii) (len : nat) :
  len <= length p ->
  secure_zeroize p len = zeros len ++ drop len p /\
  length (secure_zeroize p len) = length p /\
  secure_zeroize (secure_zeroize p len) len = secure_zeroize p len.
Proof.
  intros Hlen.
  assert (E := secure_zeroize_within p len Hlen).
  assert (L : length (secure_zeroize p len) = length p).
  { rewrite E, length_app, zeros_length, length_drop. lia. }
  split; [exact E|]. split; [exact L|].
  rewrite (secure_zeroize_within (secure_zeroize p len) len) by lia.
  rewrite E at 1.
  rewrite drop_app_length' by (symmetry; apply zeros_length).
  now rewrite E.
Qed.

Lemma secure_zeroize_clears_exactly_len_witness :
  3 <= length (lit "secret") /\
  secure_zeroize (lit "secret") 3 = zeros 3 ++ drop 3 (lit "secret") /\
  length (secure_zeroize (lit "secret") 3) = length (lit "secret") /\
  secure_zeroize (secure_zeroize (lit "secret") 3) 3 =
    secure_zeroize (lit "secret") 3.
Proof.
  assert (H : 3 <= length (lit "secret")) by (vm_compute; lia).
  split; [exact H|].
  exact (secure_zeroize_clears_exactly_len (lit "secret") 3 H).
Defined.

(** *** [verify_user_password] *)

Lemma emit_nothing (f : stream) (w : world) : emit f [] w = w.
Proof. destruct w, f; simpl; now rewrite app_nil_r. Qed.

(** X2: whatever its arguments, NULL pointers included, and whatever table
    and check are in use, [verify_user_password] returns; it reads no input,
    prints nothing on standard output, starts no command and leaves the
    arrays alone.  The only thing it may add to the state is one of its two
    complaints on the error stream, and then it returns [false]. *)
Theorem verify_user_password_only_complains
    db chk (name password : option (list ascii)) (w : world) :
  exists (b : bool) (msg : list ascii),
    Auth.verify_user_password db chk name password w =
      Done b (emit Stderr msg w) /\
    (msg = [] \/
     (b = false /\
      (msg = line "Error: Username or password is invalid length." \/
       msg = line "Error: Username or password is NULL."))).
Proof.
  destruct name as [name|], password as [password|].
  - rewrite verify_user_password_eq.
    destruct (invalid_length name password).
    + eexists false, _. split; [reflexivity|]. right. split; [reflexivity|now left].
    + eexists _, []. rewrite emit_nothing. split; [reflexivity|now left].
  - eexists false, _. split; [reflexivity|]. right. split; [reflexivity|now right].
  - eexists false, _. split; [reflexivity|]. right. split; [reflexivity|now right].
  - eexists false, _. split; [reflexivity|]. right. split; [reflexivity|now right].
Qed.

(** X3: with the table and the stub check of the source, a pair is accepted
    exactly when both strings have 1 to 31 characters and some stored name
    starts the given name; the password's characters play no part. *)
Theorem accepted_iff_lengths_and_leading_name (name password : list ascii) (w : world) :
  verify_user_password (Some name) (Some password) w = Done true w <->
  (0 < strlen name < MAX_USERNAME_LENGTH /\
   0 < strlen password < MAX_PASSWORD_LENGTH /\
   exists u, u ∈ database /\ cstr (username u) `prefix_of` cstr name).
Proof.
  unfold verify_user_password. rewrite verify_user_password_eq.
  unfold invalid_length, bcrypt_checkpw.
  destruct (Nat.eqb_spec (strlen name) 0) as [?|Hn0];
    destruct (Nat.leb_spec MAX_USERNAME_LENGTH (strlen name)) as [?|Hn1];
    destruct (Nat.eqb_spec (strlen password) 0) as [?|Hp0];
    destruct (Nat.leb_spec MAX_PASSWORD_LENGTH (strlen password)) as [?|Hp1];
    cbn [orb]; try (split; [discriminate|lia]).
  destruct (find_user database name) as [u|] eqn:E.
  - split; [|reflexivity]. intros _.
    apply find_user_Some in E as [Hin Hpre].
    repeat split; try lia. exists u. split; [assumption|].
    exact (proj1 (prefix_of_cstr _ name (cstr_no_NUL _)) Hpre).
  - split; [discriminate|]. intros (_ & _ & u & Hin & Hpre). exfalso.
    apply (proj1 (find_user_None database name) E u Hin).
    exact (proj2 (prefix_of_cstr _ name (cstr_no_NUL _)) Hpre).
Qed.

(** *** The scan of the table *)

(** X4: the scan returns the first entry, in the order of the table, whose
    stored name starts the candidate: an entry is found exactly when the
    table splits around it with no matching entry before it. *)
Theorem find_user_first_match (db : list User) (name : list ascii) (u : User) :
  find_user db name = Some u <->
  exists before after,
    db = before ++ u :: after /\
    cstr (username u) `prefix_of` name /\
    forall v, v ∈ before -> ~ cstr (username v) `prefix_of` name.
Proof.
  revert u. induction db as [|x db IH]; intros u; simpl.
  - split; [discriminate|]. intros (b & a & E & _). destruct b; discriminate.
  - destruct (Z.eqb_spec (strncmp (username x) name (strlen (username x))) 0)
      as [Hx|Hx].
    + apply strncmp_stored_length in Hx. split.
      * intros [= ->]. exists [], db. split; [reflexivity|].
        split; [assumption|]. intros v Hv. inversion Hv.
      * intros (b & a & E & Hu & Hb). destruct b as [|y b].
        -- injection E as E1 _. now rewrite E1.
        -- injection E as E1 _. exfalso. apply (Hb y); [constructor|].
           now rewrite <- E1.
    + assert (Hx' : ~ cstr (username x) `prefix_of` name).
      { intros H. now apply Hx, strncmp_stored_length. }
      rewrite IH. split.
      * intros (b & a & -> & Hu & Hb). exists (x :: b), a.
        split; [reflexivity|]. split; [assumption|].
        intros v Hv. apply elem_of_cons in Hv as [->|Hv]; [assumption|now apply Hb].
      * intros (b & a & E & Hu & Hb). destruct b as [|y b].
        -- injection E as E1 _. rewrite E1 in Hx'. contradiction.
        -- injection E as _ E2. exists b, a. split; [exact E2|].
           split; [assumption|]. intros v Hv. apply Hb. now constructor.
Qed.

Lemma prefix_of_same_start (a b s : list ascii) :
  a `prefix_of` s -> b `prefix_of` s -> a `prefix_of` b \/ b `prefix_of` a.
Proof.
  intros Ha Hb. destruct (prefix_weak_total _ _ _ Ha Hb); auto.
Qed.

(** X5: in the table of the source no stored name starts another one, so
    the order of the entries does not matter: the scan finds an entry
    exactly when it is in the table and its name starts the candidate. *)
Theorem database_match_is_unique (name : list ascii) (u : User) :
  find_user database name = Some u <->
  u ∈ database /\ cstr (username u) `prefix_of` name.
Proof.
  split; [apply find_user_Some|].
  intros [Hin Hpre].
  destruct (find_user database name) as [v|] eqn:E.
  - apply find_user_Some in E as [Hv Hpv].
    destruct (prefix_of_same_start _ _ _ Hpre Hpv) as [H|H];
      unfold database in Hin, Hv;
      repeat (apply elem_of_cons in Hin as [->|Hin]);
      repeat (apply elem_of_cons in Hv as [->|Hv]);
      try (inversion Hin; fail); try (inversion Hv; fail);
      try reflexivity;
      exfalso; vm_compute in H; destruct H as [k Hk]; discriminate Hk.
  - exfalso. exact (proj1 (find_user_None database name) E u Hin Hpre).
Qed.

(** *** The two reads *)

Lemma read_chars_split (k : nat) (input : list ascii) :
  fst (read_chars k input) ++ snd (read_chars k input) = input /\
  length (fst (read_chars k input)) <= k.
Proof.
  revert input. induction k as [|k IH]; intros input; simpl.
  - split; [reflexivity|lia].
  - destruct input as [|c input]; simpl; [split; [reflexivity|lia]|].
    destruct (Ascii.eqb c NL); simpl; [split; [reflexivity|lia]|].
    destruct (IH input) as [E L].
    destruct (read_chars k input) as [got rest]. simpl in *.
    split; [now rewrite E|lia].
Qed.

(** [fgets] into a cleared array of size [n]: the characters taken, then
    zero bytes up to the size. *)
Lemma fgets_zeros (n : nat) (input : list ascii) :
  1 <= n ->
  snd (fst (fgets (zeros n) n input)) =
    fst (read_chars (n - 1) input) ++
    zeros (n - length (fst (read_chars (n - 1) input))) /\
  snd (fgets (zeros n) n input) = snd (read_chars (n - 1) input).
Proof.
  intros Hn. unfold fgets.
  destruct (read_chars_split (n - 1) input) as [_ L].
  destruct (read_chars (n - 1) input) as [got rest]. simpl in *.
  destruct got as [|c got]; simpl.
  - split; [|reflexivity]. now rewrite Nat.sub_0_r.
  - split; [|reflexivity]. unfold overwrite.
    cbn [length]. rewrite length_app. cbn [length]. rewrite drop_zeros.
    cbn [length] in L.
    change ((c :: got ++ [NUL]) ++ zeros (n - S (length got + 1)))
      with (c :: (got ++ [NUL]) ++ zeros (n - S (length got + 1))).
    rewrite <- app_assoc. do 2 f_equal.
    change (zeros (S (n - S (length got + 1))) = zeros (n - S (length got))).
    f_equal. lia.
Qed.

Lemma strlen_app_zeros (l : list ascii) (k : nat) :
  1 <= k -> strlen (l ++ zeros k) <= length l.
Proof.
  intros Hk. induction l as [|c l IH]; simpl.
  - destruct k; [lia|reflexivity].
  - destruct (Ascii.eqb c NUL); lia.
Qed.

Lemma cstr_app_zeros (l : list ascii) (k : nat) :
  NUL ∉ l -> cstr (l ++ zeros k) = l.
Proof.
  intros H. induction l as [|c l IH]; simpl.
  - destruct k; reflexivity.
  - apply not_elem_of_cons in H as [Hc Hl].
    destruct (Ascii.eqb_spec c NUL) as [->|_]; [congruence|].
    now rewrite IH.
Qed.

Lemma strcspn_le_strlen (s reject : list ascii) : strcspn s reject <= strlen s.
Proof.
  induction s as [|c s IH]; simpl; [lia|].
  destruct (Ascii.eqb c NUL); simpl; [lia|].
  destruct (existsb (Ascii.eqb c) reject); lia.
Qed.

Lemma strlen_strip_newline (buf : list ascii) :
  strlen (strip_newline buf) = strcspn buf [NL].
Proof.
  unfold strip_newline. induction buf as [|c buf IH]; simpl; [reflexivity|].
  destruct (Ascii.eqb_spec c NUL) as [->|Hc]; simpl; [reflexivity|].
  destruct (Ascii.eqb c NL); simpl; [reflexivity|].
  destruct (Ascii.eqb_spec c NUL) as [|_]; [contradiction|].
  now rewrite IH.
Qed.

Lemma cstr_strip_newline (buf : list ascii) :
  cstr (strip_newline buf) = take (strcspn buf [NL]) buf /\
  NL ∉ cstr (strip_newline buf).
Proof.
  unfold strip_newline. induction buf as [|c buf [IH1 IH2]]; simpl.
  - split; [reflexivity|apply not_elem_of_nil].
  - destruct (Ascii.eqb_spec c NUL) as [->|Hc]; simpl.
    { split; [reflexivity|apply not_elem_of_nil]. }
    destruct (Ascii.eqb_spec c NL) as [->|Hn]; simpl.
    { split; [reflexivity|apply not_elem_of_nil]. }
    destruct (Ascii.eqb_spec c NUL) as [|_]; [contradiction|].
    rewrite IH1. split; [reflexivity|].
    apply not_elem_of_cons. split; [congruence|]. now rewrite <- IH1.
Qed.

Lemma length_read_buffer (input : list ascii) :
  length (snd (fst (fgets (zeros 32) 32 input))) = 32 /\
  strlen (snd (fst (fgets (zeros 32) 32 input))) <= 31.
Proof.
  destruct (fgets_zeros 32 input) as [-> _]; [lia|].
  destruct (read_chars_split (32 - 1) input) as [_ L]. simpl in L.
  split.
  - rewrite length_app, zeros_length. simpl. lia.
  - etransitivity; [apply strlen_app_zeros; simpl; lia|]. exact L.
Qed.

Lemma reads_bounds (input : list ascii) :
  length (name_buffer input) = MAX_USERNAME_LENGTH /\
  length (password_buffer input) = MAX_PASSWORD_LENGTH.
Proof.
  unfold name_buffer, password_buffer, strip_newline,
    MAX_USERNAME_LENGTH, MAX_PASSWORD_LENGTH.
  destruct (length_read_buffer input) as [L _].
  split; [exact L|]. now rewrite length_insert.
Qed.

(** X6: the two reads and the assignment that ends the password stay inside
    the arrays: for every input both arrays keep their 32 bytes, and the
    index [strcspn(entered_password, "\n")] that is written to is below
    32. *)
Theorem reads_stay_in_bounds (input : list ascii) :
  length (name_buffer input) = MAX_USERNAME_LENGTH /\
  length (password_buffer input) = MAX_PASSWORD_LENGTH /\
  strcspn (snd (fst (fgets (zeros MAX_PASSWORD_LENGTH)
                           MAX_PASSWORD_LENGTH input))) [NL]
    < MAX_PASSWORD_LENGTH.
Proof.
  unfold name_buffer, password_buffer, strip_newline,
    MAX_USERNAME_LENGTH, MAX_PASSWORD_LENGTH.
  destruct (length_read_buffer input) as [L S].
  split; [exact L|]. split; [now rewrite length_insert|].
  eapply Nat.le_lt_trans; [apply strcspn_le_strlen|]. lia.
Qed.

(** X7: what reaches [verify_user_password] from the prompts is always a
    terminated string of at most 31 characters, so of the four conditions
    of its length test only the two on emptiness can hold there. *)
Theorem length_test_only_catches_empty (w0 : world) :
  let w1 := at_verification w0 in
  strlen (entered_name w1) <= 31 /\
  strlen (entered_password w1) <= 31 /\
  (invalid_length (entered_name w1) (entered_password w1) = true <->
   strlen (entered_name w1) = 0 \/ strlen (entered_password w1) = 0).
Proof.
  cbn [at_verification entered_name entered_password].
  assert (Hn : strlen (name_buffer (stdin w0)) <= 31)
    by apply length_read_buffer.
  assert (Hp : strlen (password_buffer (after_name (stdin w0))) <= 31).
  { unfold password_buffer. rewrite strlen_strip_newline.
    etransitivity; [apply strcspn_le_strlen|]. apply length_read_buffer. }
  split; [exact Hn|]. split; [exact Hp|].
  unfold invalid_length, MAX_USERNAME_LENGTH, MAX_PASSWORD_LENGTH.
  rewrite !orb_true_iff, !Nat.eqb_eq, !Nat.leb_le. lia.
Qed.

(** X8: after the password prompt the password never contains a newline,
    whatever was typed: the string in the array is the part of what [fgets]
    stored that comes before the first newline. *)
Theorem password_has_no_newline (input : list ascii) :
  (NL ∉ cstr (password_buffer input)) /\
  strlen (password_buffer input) =
    strcspn (snd (fst (fgets (zeros MAX_PASSWORD_LENGTH)
                             MAX_PASSWORD_LENGTH input))) [NL].
Proof.
  unfold password_buffer. split.
  - apply cstr_strip_newline.
  - apply strlen_strip_newline.
Qed.

Lemma after_read_chars (input : list ascii) :
  after_name input = snd (read_chars 31 input) /\
  after_password input = snd (read_chars 31 input).
Proof.
  unfold after_name, after_password, MAX_USERNAME_LENGTH, MAX_PASSWORD_LENGTH.
  destruct (fgets_zeros 32 input) as [_ ->]; [lia|]. now split.
Qed.

Lemma prompts_consume (input : list ascii) :
  exists consumed,
    input = consumed ++ after_password (after_name input) /\
    length consumed <= 62.
Proof.
  destruct (after_read_chars input) as [-> _].
  destruct (after_read_chars (snd (read_chars 31 input))) as [_ ->].
  destruct (read_chars_split 31 input) as [E1 L1].
  destruct (read_chars_split 31 (snd (read_chars 31 input))) as [E2 L2].
  exists (fst (read_chars 31 input) ++
          fst (read_chars 31 (snd (read_chars 31 input)))).
  split.
  - now rewrite <- app_assoc, E2, E1.
  - rewrite length_app. lia.
Qed.

(** What [authenticate_admin] leaves of the state it started in. *)
Lemma authenticate_admin_leaves db chk (w0 w : world) (b : bool) :
  frame_ok w0 ->
  Auth.authenticate_admin db chk w0 = Done b w ->
  stdin w = stdin (at_verification w0) /\
  system_calls w = system_calls w0 /\
  entered_name w = entered_name (at_verification w0) /\
  entered_password w = entered_password (at_verification w0).
Proof.
  intros Hf. rewrite authenticate_admin_eq by assumption. cbv zeta.
  rewrite verify_user_password_eq.
  destruct (invalid_length _ _).
  - intros [= <- <-]. repeat split.
  - destruct (match find_user db _ with Some _ => _ | None => _ end).
    + destruct (format _ []); [|discriminate].
      intros [= <- <-]. repeat split.
    + intros [= <- <-]. repeat split.
Qed.

(** X9: when [authenticate_admin] returns, it has taken its characters from
    the front of the input and never more than 31 at each prompt, so what
    is left unread is the input without a leading part of at most 62
    characters; both arrays still have their 32 bytes and no command was
    started. *)
Theorem authenticate_admin_footprint db chk (w0 w : world) (b : bool) :
  frame_ok w0 ->
  Auth.authenticate_admin db chk w0 = Done b w ->
  (exists consumed,
      stdin w0 = consumed ++ stdin w /\ length consumed <= 62) /\
  frame_ok w /\
  system_calls w = system_calls w0.
Proof.
  intros Hf Hrun.
  destruct (authenticate_admin_leaves db chk w0 w b Hf Hrun)
    as (Hin & Hc & Hn & Hp).
  split; [|split; [|exact Hc]].
  - rewrite Hin. apply prompts_consume.
  - unfold frame_ok. rewrite Hn, Hp.
    cbn [at_verification entered_name entered_password].
    split; apply reads_bounds.
Qed.

Lemma authenticate_admin_footprint_witness :
  frame_ok (fresh (line "admin" ++ line "aaaaaaaa" ++ line "ls")) /\
  (exists w,
      Auth.authenticate_admin database bcrypt_checkpw
        (fresh (line "admin" ++ line "aaaaaaaa" ++ line "ls")) = Done true w /\
      (exists consumed,
          stdin (fresh (line "admin" ++ line "aaaaaaaa" ++ line "ls")) =
            consumed ++ stdin w /\ length consumed <= 62) /\
      frame_ok w /\
      system_calls w =
        system_calls (fresh (line "admin" ++ line "aaaaaaaa" ++ line "ls"))).
Proof.
  assert (Hf : frame_ok (fresh (line "admin" ++ line "aaaaaaaa" ++ line "ls")))
    by apply frame_ok_fresh.
  split; [exact Hf|].
  destruct (authenticate_admin_true database bcrypt_checkpw
              (fresh (line "admin" ++ line "aaaaaaaa" ++ line "ls")) Hf)
    as (w & Hrun & _).
  - vm_compute. reflexivity.
  - apply not_elem_of_forallb. vm_compute. reflexivity.
  - exists w. split; [exact Hrun|].
    exact (authenticate_admin_footprint database bcrypt_checkpw _ w true Hf Hrun).
Defined.

Lemma read_chars_newline (k : nat) (input : list ascii) :
  NL ∉ fst (read_chars k input) \/
  exists g, fst (read_chars k input) = g ++ [NL] /\ NL ∉ g.
Proof.
  revert input. induction k as [|k IH]; intros input; simpl.
  - left. apply not_elem_of_nil.
  - destruct input as [|c input]; simpl; [left; apply not_elem_of_nil|].
    destruct (Ascii.eqb_spec c NL) as [->|Hc]; simpl.
    + right. exists []. split; [reflexivity|apply not_elem_of_nil].
    + specialize (IH input).
      destruct (read_chars k input) as [got rest]. simpl in *.
      destruct IH as [H|(g & -> & Hg)].
      * left. apply not_elem_of_cons. split; [congruence|assumption].
      * right. exists (c :: g). split; [reflexivity|].
        apply not_elem_of_cons. split; [congruence|assumption].
Qed.

Lemma strcspn_no_newline (l : list ascii) (k : nat) :
  NL ∉ l -> NUL ∉ l -> strcspn (l ++ zeros (S k)) [NL] = length l.
Proof.
  induction l as [|c l IH]; intros Hnl Hnul; simpl; [reflexivity|].
  apply not_elem_of_cons in Hnl as [Hc1 Hnl].
  apply not_elem_of_cons in Hnul as [Hc0 Hnul].
  destruct (Ascii.eqb_spec c NUL) as [->|_]; [congruence|].
  destruct (Ascii.eqb_spec c NL) as [->|_]; [congruence|].
  simpl. now rewrite IH.
Qed.

(** X10: the reads neither lose nor invent characters.  For an input without
    zero bytes, the string in the name array followed by the unread input is
    the input; and the string in the password array followed by the unread
    input is the input as well, up to the one newline that the program
    removes. *)
Theorem arrays_hold_what_was_read (input : list ascii) :
  NUL ∉ input ->
  cstr (name_buffer input) ++ after_name input = input /\
  (cstr (password_buffer input) ++ after_password input = input \/
   cstr (password_buffer input) ++ NL :: after_password input = input).
Proof.
  intros Hnul.
  destruct (after_read_chars input) as [Ha Hb].
  destruct (read_chars_split 31 input) as [E L].
  assert (Hgot : NUL ∉ fst (read_chars 31 input)).
  { rewrite <- E in Hnul. now apply not_elem_of_app in Hnul as [H _]. }
  split.
  - rewrite Ha. unfold name_buffer, MAX_USERNAME_LENGTH.
    destruct (fgets_zeros 32 input) as [-> _]; [lia|].
    now rewrite cstr_app_zeros.
  - rewrite Hb. unfold password_buffer, MAX_PASSWORD_LENGTH.
    destruct (cstr_strip_newline (snd (fst (fgets (zeros 32) 32 input))))
      as [-> _].
    destruct (fgets_zeros 32 input) as [-> _]; [lia|].
    change (32 - 1) with 31.
    replace (32 - length (fst (read_chars 31 input)))
      with (S (31 - length (fst (read_chars 31 input)))) by lia.
    destruct (read_chars_newline 31 input) as [Hnl|(g & Hg & Hnl)].
    + left. rewrite strcspn_no_newline by assumption.
      rewrite take_app_length. exact E.
    + right. rewrite Hg in *.
      apply not_elem_of_app in Hgot as [Hg0 _].
      rewrite <- app_assoc. cbn [app].
      rewrite strcspn_newline by assumption.
      rewrite take_app_length.
      rewrite <- app_assoc in E. exact E.
Qed.

Lemma arrays_hold_what_was_read_witness :
  (NUL ∉ line "admin" ++ line "aaaaaaaa") /\
  cstr (name_buffer (line "admin" ++ line "aaaaaaaa")) ++
    after_name (line "admin" ++ line "aaaaaaaa") =
    line "admin" ++ line "aaaaaaaa" /\
  (cstr (password_buffer (line "admin" ++ line "aaaaaaaa")) ++
     after_password (line "admin" ++ line "aaaaaaaa") =
     line "admin" ++ line "aaaaaaaa" \/
   cstr (password_buffer (line "admin" ++ line "aaaaaaaa")) ++
     NL :: after_password (line "admin" ++ line "aaaaaaaa") =
     line "admin" ++ line "aaaaaaaa").
Proof.
  assert (H : NUL ∉ line "admin" ++ line "aaaaaaaa")
    by (apply not_elem_of_forallb; vm_compute; reflexivity).
  split; [exact H|].
  exact (arrays_hold_what_was_read (line "admin" ++ line "aaaaaaaa") H).
Defined.

(** *** The whole run *)

(** X11: the arrays are cleared before they are used, so the content of the
    stack never shows: for arrays of the declared size a run of [main] is
    the same whatever the two arrays held at the start. *)
Theorem run_ignores_initial_arrays db chk (input nm pm : list ascii) :
  length nm = MAX_USERNAME_LENGTH -> length pm = MAX_PASSWORD_LENGTH ->
  Auth.main db chk (initial input nm pm) = Auth.main db chk (fresh input).
Proof.
  intros Hn Hp.
  rewrite !main_eq.
  rewrite (authenticate_admin_eq db chk (initial input nm pm))
    by now apply frame_ok_initial.
  rewrite (authenticate_admin_eq db chk (fresh input))
    by apply frame_ok_fresh.
  reflexivity.
Qed.

Lemma run_ignores_initial_arrays_witness :
  length (lit "stack garbage in the name array.") = MAX_USERNAME_LENGTH /\
  length (lit "stack garbage, password array...") = MAX_PASSWORD_LENGTH /\
  Auth.main database bcrypt_checkpw
    (initial (line "admin" ++ line "aaaaaaaa")
             (lit "stack garbage in the name array.")
             (lit "stack garbage, password array...")) =
  Auth.main database bcrypt_checkpw (fresh (line "admin" ++ line "aaaaaaaa")).
Proof.
  split; [reflexivity|]. split; [reflexivity|].
  exact (run_ignores_initial_arrays database bcrypt_checkpw
           (line "admin" ++ line "aaaaaaaa")
           (lit "stack garbage in the name array.")
           (lit "stack garbage, password array...") eq_refl eq_refl).
Defined.

Lemma verify_at_verification db chk (w0 : world) :
  let w1 := at_verification w0 in
  Auth.verify_user_password db chk
    (Some (entered_name w1)) (Some (entered_password w1)) w1 =
  if invalid_length (entered_name w1) (entered_password w1)
  then Done false
         (emit Stderr (line "Error: Username or password is invalid length.") w1)
  else Done (verdict db chk (entered_name w1) (entered_password w1)) w1.
Proof.
  intros w1. rewrite verify_user_password_eq. unfold verdict.
  now destruct (invalid_length (entered_name w1) (entered_password w1)).
Qed.

(** X12: every run of [main] ends in one of three ways.  When the pair is
    not accepted, [main] returns 0 and starts no command.  When it is
    accepted and the name is a well-formed format without conversions that
    need an argument, [main] returns 0 and starts [/bin/sh] once, and
    nothing else.  When it is accepted and the name is not such a format,
    the [printf] of the name is undefined behaviour. *)
Theorem main_ends_in_one_of_three_ways db chk (w0 : world) :
  frame_ok w0 ->
  let w1 := at_verification w0 in
  let ok := verdict db chk (entered_name w1) (entered_password w1) in
  (ok = false /\
   exists w, Auth.main db chk w0 = Done 0%Z w /\
             system_calls w = system_calls w0) \/
  (ok = true /\
   exists text w, format (entered_name w1) [] = Some text /\
                  Auth.main db chk w0 = Done 0%Z w /\
                  system_calls w = system_calls w0 ++ [lit "/bin/sh"]) \/
  (ok = true /\ format (entered_name w1) [] = None /\
   Auth.main db chk w0 = Undefined).
Proof.
  intros Hf w1 ok.
  rewrite main_eq, authenticate_admin_eq by assumption.
  fold w1. cbv zeta.
  destruct ok eqn:E; subst ok.
  - right.
    assert (Hv := verify_at_verification db chk w0). fold w1 in Hv.
    cbv zeta in Hv. rewrite Hv. clear Hv.
    unfold verdict in E. apply andb_true_iff in E as [Hi E'].
    apply negb_true_iff in Hi. rewrite Hi.
    unfold verdict. rewrite Hi, E'. cbn [negb andb].
    destruct (format (entered_name w1) []) as [text|].
    + left. split; [reflexivity|]. eexists text, _.
      split; [reflexivity|]. split; reflexivity.
    + right. repeat split.
  - left. split; [reflexivity|].
    destruct (authenticate_admin_false db chk w0 Hf E)
      as (w & Hrun & _ & _ & Hc & _).
    rewrite authenticate_admin_eq in Hrun by assumption.
    fold w1 in Hrun. cbv zeta in Hrun. rewrite Hrun.
    eexists. split; [reflexivity|]. exact Hc.
Qed.

Lemma main_ends_in_one_of_three_ways_witness :
  frame_ok (fresh (line "admin%s" ++ line "x")) /\
  ((verdict database bcrypt_checkpw
      (entered_name (at_verification (fresh (line "admin%s" ++ line "x"))))
      (entered_password (at_verification (fresh (line "admin%s" ++ line "x"))))
    = false /\
    exists w, Auth.main database bcrypt_checkpw
                (fresh (line "admin%s" ++ line "x")) = Done 0%Z w /\
              system_calls w = system_calls (fresh (line "admin%s" ++ line "x"))) \/
   (verdict database bcrypt_checkpw
      (entered_name (at_verification (fresh (line "admin%s" ++ line "x"))))
      (entered_password (at_verification (fresh (line "admin%s" ++ line "x"))))
    = true /\
    exists text w,
      format (entered_name (at_verification (fresh (line "admin%s" ++ line "x"))))
             [] = Some text /\
      Auth.main database bcrypt_checkpw
        (fresh (line "admin%s" ++ line "x")) = Done 0%Z w /\
      system_calls w =
        system_calls (fresh (line "admin%s" ++ line "x")) ++ [lit "/bin/sh"]) \/
   (verdict database bcrypt_checkpw
      (entered_name (at_verification (fresh (line "admin%s" ++ line "x"))))
      (entered_password (at_verification (fresh (line "admin%s" ++ line "x"))))
    = true /\
    format (entered_name (at_verification (fresh (line "admin%s" ++ line "x"))))
           [] = None /\
    Auth.main database bcrypt_checkpw
      (fresh (line "admin%s" ++ line "x")) = Undefined)).
Proof.
  assert (Hf : frame_ok (fresh (line "admin%s" ++ line "x")))
    by apply frame_ok_fresh.
  split; [exact Hf|].
  exact (main_ends_in_one_of_three_ways database bcrypt_checkpw
           (fresh (line "admin%s" ++ line "x")) Hf).
Defined.

(** *** The two messages *)

Lemma format_cstr_no_percent (s : list ascii) :
  PERCENT ∉ cstr s -> format s [] = Some (cstr s).
Proof.
  induction s as [|c s IH]; intros H; [reflexivity|].
  cbn [format cstr] in *.
  destruct (Ascii.eqb_spec c NUL) as [|_]; [reflexivity|].
  apply not_elem_of_cons in H as [Hc Hs].
  destruct (Ascii.eqb_spec c PERCENT) as [->|_]; [congruence|].
  now rewrite IH.
Qed.

(** A format printed without arguments never gets longer, and gets shorter
    when it holds a percent sign. *)
Lemma format_shrinks (n : nat) (s t : list ascii) :
  length s <= n -> format s [] = Some t ->
  length t <= length (cstr s) /\
  (PERCENT ∈ cstr s -> length t < length (cstr s)).
Proof.
  revert s t. induction n as [|n IH]; intros s t Hlen Hf.
  - destruct s; [|simpl in Hlen; lia]. injection Hf as <-.
    split; [reflexivity|]. intros H. inversion H.
  - destruct s as [|c s].
    { injection Hf as <-. split; [reflexivity|]. intros H. inversion H. }
    cbn [format cstr] in *. cbn [length] in Hlen.
    destruct (Ascii.eqb_spec c NUL) as [|Hc0].
    { injection Hf as <-. split; [reflexivity|]. intros H. inversion H. }
    destruct (Ascii.eqb_spec c PERCENT) as [->|Hc1].
    + destruct s as [|d s]; [discriminate|].
      destruct (Ascii.eqb_spec d PERCENT) as [->|Hd].
      * destruct (format s []) as [t'|] eqn:E; [|discriminate].
        injection Hf as <-.
        destruct (IH s t') as [L _]; [cbn [length] in Hlen; lia|exact E|].
        cbn [cstr]. change (Ascii.eqb PERCENT NUL) with false.
        cbn [length]. split; [lia|]. intros _. lia.
      * destruct (Ascii.eqb d "s"); discriminate.
    + destruct (format s []) as [t'|] eqn:E; [|discriminate].
      injection Hf as <-.
      destruct (IH s t') as [L S]; [lia|exact E|].
      cbn [length]. split; [lia|].
      intros H. apply elem_of_cons in H as [H|H]; [congruence|].
      specialize (S H). lia.
Qed.

Lemma format_literal_iff (s : list ascii) :
  format s [] = Some (cstr s) <-> PERCENT ∉ cstr s.
Proof.
  split; [|apply format_cstr_no_percent].
  intros Hf Hin.
  destruct (format_shrinks (length s) s (cstr s) (le_n _) Hf) as [_ H].
  specialize (H Hin). lia.
Qed.

(** X13: in an accepted run the success message shows the name as it was
    typed exactly when the name holds no percent sign; with a percent sign
    the message is either different from what was typed or not defined. *)
Theorem success_message_literal_iff_no_percent db chk (w0 : world) :
  frame_ok w0 ->
  let w1 := at_verification w0 in
  verdict db chk (entered_name w1) (entered_password w1) = true ->
  (exists w, Auth.authenticate_admin db chk w0 = Done true w /\
             stdout w = stdout w1 ++ success_head ++
                        cstr (entered_name w1) ++ Auth.rule) <->
  PERCENT ∉ cstr (entered_name w1).
Proof.
  intros Hf w1 Hv.
  rewrite authenticate_admin_eq by assumption. fold w1. cbv zeta.
  assert (Hver := verify_at_verification db chk w0). fold w1 in Hver.
  cbv zeta in Hver. rewrite Hver. clear Hver. rewrite Hv.
  assert (Hi : invalid_length (entered_name w1) (entered_password w1) = false).
  { unfold verdict in Hv. apply andb_true_iff in Hv as [Hi _].
    now apply negb_true_iff in Hi. }
  rewrite Hi. rewrite <- format_literal_iff.
  destruct (format (entered_name w1) []) as [text|].
  - split.
    + intros (w & Hw & Hout). injection Hw as Hw. rewrite <- Hw in Hout.
      cbn [emit stdout] in Hout.
      apply (app_inv_head (stdout w1)) in Hout.
      apply (app_inv_head success_head) in Hout.
      apply (app_inv_tail Auth.rule) in Hout. now rewrite Hout.
    + intros [= ->]. eexists. split; reflexivity.
  - split; [intros (w & H & _); discriminate|discriminate].
Qed.

Lemma success_message_literal_iff_no_percent_witness :
  frame_ok (fresh (line "admin%%" ++ line "x")) /\
  verdict database bcrypt_checkpw
    (entered_name (at_verification (fresh (line "admin%%" ++ line "x"))))
    (entered_password (at_verification (fresh (line "admin%%" ++ line "x"))))
    = true /\
  ((exists w,
       Auth.authenticate_admin database bcrypt_checkpw
         (fresh (line "admin%%" ++ line "x")) = Done true w /\
       stdout w =
         stdout (at_verification (fresh (line "admin%%" ++ line "x"))) ++
         success_head ++
         cstr (entered_name (at_verification (fresh (line "admin%%" ++ line "x"))))
         ++ Auth.rule) <->
   PERCENT ∉
     cstr (entered_name (at_verification (fresh (line "admin%%" ++ line "x"))))).
Proof.
  assert (Hf : frame_ok (fresh (line "admin%%" ++ line "x")))
    by apply frame_ok_fresh.
  assert (Hv : verdict database bcrypt_checkpw
    (entered_name (at_verification (fresh (line "admin%%" ++ line "x"))))
    (entered_password (at_verification (fresh (line "admin%%" ++ line "x"))))
    = true) by (vm_compute; reflexivity).
  split; [exact Hf|]. split; [exact Hv|].
  exact (success_message_literal_iff_no_percent database bcrypt_checkpw
           (fresh (line "admin%%" ++ line "x")) Hf Hv).
Defined.

(** X14: the message of a run that is not accepted takes the name as an
    argument of [%s]: the run is defined for every name, conversions
    included, and the message shows the name character for character. *)
Theorem mismatch_message_is_literal db chk (w0 : world) :
  frame_ok w0 ->
  let w1 := at_verification w0 in
  verdict db chk (entered_name w1) (entered_password w1) = false ->
  exists w, Auth.authenticate_admin db chk w0 = Done false w /\
            stdout w = stdout w0 ++ line "Enter username:" ++
                       line "Enter password:" ++
                       lit "Password mismatch for the user: " ++
                       cstr (entered_name w1) ++ [NL].
Proof.
  intros Hf w1 Hv.
  destruct (authenticate_admin_false db chk w0 Hf Hv)
    as (w & Hrun & Hout & _).
  exists w. split; [exact Hrun|]. rewrite Hout.
  unfold mismatch_message. cbn [at_verification stdout].
  now rewrite <- !app_assoc.
Qed.

Lemma mismatch_message_is_literal_witness :
  frame_ok (fresh (line "nouser%s%n" ++ line "x")) /\
  verdict database bcrypt_checkpw
    (entered_name (at_verification (fresh (line "nouser%s%n" ++ line "x"))))
    (entered_password (at_verification (fresh (line "nouser%s%n" ++ line "x"))))
    = false /\
  exists w,
    Auth.authenticate_admin database bcrypt_checkpw
      (fresh (line "nouser%s%n" ++ line "x")) = Done false w /\
    stdout w =
      stdout (fresh (line "nouser%s%n" ++ line "x")) ++
      line "Enter username:" ++ line "Enter password:" ++
      lit "Password mismatch for the user: " ++
      cstr (entered_name (at_verification (fresh (line "nouser%s%n" ++ line "x"))))
      ++ [NL].
Proof.
  assert (Hf : frame_ok (fresh (line "nouser%s%n" ++ line "x")))
    by apply frame_ok_fresh.
  assert (Hv : verdict database bcrypt_checkpw
    (entered_name (at_verification (fresh (line "nouser%s%n" ++ line "x"))))
    (entered_password (at_verification (fresh (line "nouser%s%n" ++ line "x"))))
    = false) by (vm_compute; reflexivity).
  split; [exact Hf|]. split; [exact Hv|].
  exact (mismatch_message_is_literal database bcrypt_checkpw
           (fresh (line "nouser%s%n" ++ line "x")) Hf Hv).
Defined.

(** X15: a run in which nothing, or an empty line, is left for the password
    prompt is turned down by the length test whatever the name, the table
    and the check are: the complaint goes to the error stream, [main]
    returns 0 and starts no command.  This covers an empty input. *)
Theorem missing_password_is_rejected db chk (w0 : world) :
  frame_ok w0 ->
  (after_name (stdin w0) = [] \/
   exists rest, after_name (stdin w0) = NL :: rest) ->
  exists w, Auth.main db chk w0 = Done 0%Z w /\
            stderr w = stderr w0 ++
                       line "Error: Username or password is invalid length." /\
            system_calls w = system_calls w0.
Proof.
  intros Hf Hpw.
  assert (Hp : strlen (password_buffer (after_name (stdin w0))) = 0).
  { destruct Hpw as [->|[rest ->]]; reflexivity. }
  assert (Hi : invalid_length (entered_name (at_verification w0))
                 (entered_password (at_verification w0)) = true).
  { unfold invalid_length. cbn [at_verification entered_name entered_password].
    rewrite Hp. cbn. now rewrite !orb_true_r. }
  destruct (authenticate_admin_false db chk w0 Hf)
    as (w & Hrun & _ & Herr & Hc & _).
  { unfold verdict. now rewrite Hi. }
  rewrite Hi in Herr.
  exists (emit Stdout (line "Authentication failed!") w).
  split; [now apply main_after_false|]. split; assumption.
Qed.

Lemma missing_password_is_rejected_witness :
  frame_ok (fresh (line "admin")) /\
  (after_name (stdin (fresh (line "admin"))) = [] \/
   exists rest, after_name (stdin (fresh (line "admin"))) = NL :: rest) /\
  exists w, Auth.main database bcrypt_checkpw (fresh (line "admin")) = Done 0%Z w /\
            stderr w = stderr (fresh (line "admin")) ++
                       line "Error: Username or password is invalid length." /\
            system_calls w = system_calls (fresh (line "admin")).
Proof.
  assert (Hf : frame_ok (fresh (line "admin"))) by apply frame_ok_fresh.
  assert (Hp : after_name (stdin (fresh (line "admin"))) = [] \/
               exists rest, after_name (stdin (fresh (line "admin"))) = NL :: rest)
    by (left; vm_compute; reflexivity).
  split; [exact Hf|]. split; [exact Hp|].
  exact (missing_password_is_rejected database bcrypt_checkpw
           (fresh (line "admin")) Hf Hp).
Defined.
